(** * MediMap-AI: the ICD-10 keyword matcher of [IcdCodePredictor.tsx]

    A shallow embedding of [predictIcdCode] (the only algorithm of the
    component) and of the JavaScript primitives it calls, followed by the
    properties the specification states about it; then the rest of the
    component: what it displays for a confidence, and its state under
    [handlePredict], the text field and the timer.

    - JavaScript strings are sequences of UTF-16 code units.  The embedding
      uses [string], whose characters are the code units below 256 (the
      Latin-1 block); on that block [toLowerCase] and [trim] are the exact
      ECMAScript functions, and the block is closed under both.
    - JavaScript numbers are IEEE-754 binary64 values.  They are embedded as
      [spec_float] with precision 53 and maximal exponent 1024, so every
      arithmetic operation rounds as the engine does. *)

From Stdlib Require Import List Bool Arith ZArith Lia Ascii String.
From Stdlib Require Import SpecFloat DecimalString.
Import ListNotations.

Local Open Scope string_scope.

(** ** String.prototype *)

Module JsString.

(** Code unit of a character, as a natural number. *)
Definition unit_of (c : ascii) : nat := nat_of_ascii c.

(** Simple lower-case mapping of one code unit: [A-Z] and the accented
    capitals U+00C0..U+00DE (the multiplication sign U+00D7 excepted) move
    up by 32; every other code unit of the block is its own image. *)
Definition lower_unit (c : ascii) : ascii :=
  let n := unit_of c in
  if (((65 <=? n) && (n <=? 90)) ||
      ((192 <=? n) && (n <=? 222) && negb (n =? 215)))%nat
  then ascii_of_nat (n + 32)
  else c.

(** [s.toLowerCase()] *)
Fixpoint toLowerCase (s : string) : string :=
  match s with
  | EmptyString => EmptyString
  | String c s' => String (lower_unit c) (toLowerCase s')
  end.

(** WhiteSpace and LineTerminator code units of the block: TAB, LF, VT,
    FF, CR, SP and NBSP. *)
Definition isWhiteSpace (c : ascii) : bool :=
  let n := unit_of c in
  (((9 <=? n) && (n <=? 13)) || (n =? 32) || (n =? 160))%nat.

Fixpoint trimStart (s : string) : string :=
  match s with
  | EmptyString => EmptyString
  | String c s' => if isWhiteSpace c then trimStart s' else s
  end.

Fixpoint trimEnd (s : string) : string :=
  match s with
  | EmptyString => EmptyString
  | String c s' =>
      match trimEnd s' with
      | EmptyString => if isWhiteSpace c then EmptyString
                       else String c EmptyString
      | t => String c t
      end
  end.

(** [s.trim()] *)
Definition trim (s : string) : string := trimEnd (trimStart s).

(** [s.split(sep)] for a separator of one code unit: the pieces between
    the occurrences of [sep], empty pieces included; never the empty
    array. *)
Fixpoint split (sep : ascii) (s : string) : list string :=
  match s with
  | EmptyString => [EmptyString]
  | String c s' =>
      if Ascii.eqb c sep then EmptyString :: split sep s'
      else match split sep s' with
           | [] => [String c EmptyString]
           | w :: ws => String c w :: ws
           end
  end.

(** [s.includes(t)]: [t] occurs in [s] at some position. *)
Fixpoint includes (s t : string) : bool :=
  if prefix t s then true
  else match s with
       | EmptyString => false
       | String _ s' => includes s' t
       end.

(** Every code unit of the string is white space. *)
Fixpoint allWhiteSpace (s : string) : bool :=
  match s with
  | EmptyString => true
  | String c s' => isWhiteSpace c && allWhiteSpace s'
  end.

End JsString.

(** ** Number *)

Module JsNumber.

Definition number : Type := spec_float.

Definition prec : Z := 53%Z.
Definition emax : Z := 1024%Z.

(** An integer as a number (exact below 2^53, rounded above). *)
Definition of_Z (z : Z) : number := binary_normalize prec emax z 0%Z false.
Definition of_nat (n : nat) : number := of_Z (Z.of_nat n).

Definition add : number -> number -> number := SFadd prec emax.
Definition mul : number -> number -> number := SFmul prec emax.
Definition div : number -> number -> number := SFdiv prec emax.

(** [x > y], [x >= y], [x === y] on numbers; all false on NaN. *)
Definition gt (x y : number) : bool := SFltb y x.
Definition ge (x y : number) : bool := SFleb y x.
Definition lt (x y : number) : bool := SFltb x y.
Definition le (x y : number) : bool := SFleb x y.
Definition eq (x y : number) : bool := SFeqb x y.

Definition isNaN (x : number) : bool :=
  match x with S754_nan => true | _ => false end.

(** [Math.min(x, y)]: NaN when an argument is NaN, and -0 below +0. *)
Definition Math_min (x y : number) : number :=
  match SFcompare x y with
  | None => S754_nan
  | Some Lt => x
  | Some Gt => y
  | Some Eq =>
      match x, y with
      | S754_zero true, _ => x
      | _, S754_zero true => y
      | _, _ => x
      end
  end.

(** A decimal literal [p / q] with [p] and [q] exactly representable is
    read as the binary64 value nearest to the quotient, which is what the
    correctly rounded division returns. *)
Definition decimal (p q : Z) : number := div (of_Z p) (of_Z q).

Definition n0_95 : number := Eval vm_compute in decimal 95%Z 100%Z.
Definition n0_9 : number := Eval vm_compute in decimal 9%Z 10%Z.
Definition n0_1 : number := Eval vm_compute in decimal 1%Z 10%Z.
Definition n0_3 : number := Eval vm_compute in decimal 3%Z 10%Z.
Definition n0_325 : number := Eval vm_compute in decimal 325%Z 1000%Z.
Definition n0 : number := Eval vm_compute in of_Z 0%Z.
Definition n1 : number := Eval vm_compute in of_Z 1%Z.

(** Zero, a finite number or an infinity, of sign [s]: any number but NaN
    and the numbers of the other sign. *)
Definition signed (s : bool) (x : number) : Prop :=
  x = S754_zero s \/ x = S754_infinity s \/
  exists m e, x = S754_finite s m e.

End JsNumber.

(** ** The component's data and [predictIcdCode] *)

Import JsString JsNumber.

Module Sample.
(** An element of [sampleData]. *)
Record t : Type := mk { diagnosis : string; code : string }.
End Sample.

Module PredictionResult.
(** [interface PredictionResult] *)
Record t : Type := mk {
  code : string;
  confidence : number;
  description : string
}.
End PredictionResult.

Definition sampleData : list Sample.t :=
  [ Sample.mk "Type 2 diabetes mellitus" "E11.9";
    Sample.mk "Essential hypertension" "I10";
    Sample.mk "Acute bronchitis" "J20.9";
    Sample.mk "Migraine" "G43.9";
    Sample.mk "Chronic kidney disease" "N18.9";
    Sample.mk "Asthma" "J45.9" ].

(** The initial value of [bestMatch]. *)
Definition fallback : PredictionResult.t :=
  PredictionResult.mk "Z00.00" n0_3 "General medical examination".

(** The callback of [inputWords.some(...)] applied to [word]. *)
Definition someMatch (inputWords : list string) (word : string) : bool :=
  existsb (fun inputWord => includes inputWord word || includes word inputWord)
          inputWords.

(** [sampleWords.forEach(word => { if (...) matchCount++ })] from
    [matchCount = 0].  The counter is a number with an integer value bounded
    by the length of the label, hence exact; it is kept as a [nat] and
    converted where the source divides. *)
Definition matchCount (inputWords sampleWords : list string) : nat :=
  fold_left
    (fun count word => if someMatch inputWords word then S count else count)
    sampleWords 0%nat.

Definition sampleWordsOf (sample : Sample.t) : list string :=
  split " " (toLowerCase (Sample.diagnosis sample)).

(** [Math.min(0.95, (matchCount / sampleWords.length) * 0.9 + 0.1)] *)
Definition scoreOf (matched total : nat) : number :=
  Math_min n0_95 (add (mul (div (of_nat matched) (of_nat total)) n0_9) n0_1).

(** The value of [confidence] in the loop body for [sample]. *)
Definition confidenceOf (normalizedInput : string) (sample : Sample.t)
  : number :=
  let sampleWords := sampleWordsOf sample in
  let inputWords := split " " normalizedInput in
  scoreOf (matchCount inputWords sampleWords) (List.length sampleWords).

(** One iteration of [for (const sample of sampleData)]: the new value of
    [bestMatch]. *)
Definition iteration (normalizedInput : string)
  (bestMatch : PredictionResult.t) (sample : Sample.t) : PredictionResult.t :=
  let confidence := confidenceOf normalizedInput sample in
  if gt confidence (PredictionResult.confidence bestMatch)
  then PredictionResult.mk (Sample.code sample) confidence
                           (Sample.diagnosis sample)
  else bestMatch.

(** The loop over a table, from [bestMatch = fallback]. *)
Definition predictIcdCodeOver (table : list Sample.t) (input : string)
  : PredictionResult.t :=
  let normalizedInput := trim (toLowerCase input) in
  fold_left (iteration normalizedInput) table fallback.

(** [predictIcdCode(input)] *)
Definition predictIcdCode (input : string) : PredictionResult.t :=
  predictIcdCodeOver sampleData input.

(** ** The loop as a transition system *)

Module Loop.

(** A state of [for (const sample of sampleData)]: the samples still to
    visit and the current value of the variable [bestMatch]. *)
Record state : Type := mk {
  pending : list Sample.t;
  bestMatch : PredictionResult.t
}.

(** One iteration: the [if] of the body is taken or not. *)
Inductive step (normalizedInput : string) : state -> state -> Prop :=
| step_replace sample rest best :
    gt (confidenceOf normalizedInput sample)
       (PredictionResult.confidence best) = true ->
    step normalizedInput
         (mk (sample :: rest) best)
         (mk rest (PredictionResult.mk
                     (Sample.code sample)
                     (confidenceOf normalizedInput sample)
                     (Sample.diagnosis sample)))
| step_keep sample rest best :
    gt (confidenceOf normalizedInput sample)
       (PredictionResult.confidence best) = false ->
    step normalizedInput (mk (sample :: rest) best) (mk rest best).

(** Iterations until the table is exhausted, then [return bestMatch]. *)
Inductive run (normalizedInput : string)
  : state -> PredictionResult.t -> Prop :=
| run_return best : run normalizedInput (mk [] best) best
| run_step st st' result :
    step normalizedInput st st' ->
    run normalizedInput st' result ->
    run normalizedInput st result.

End Loop.

(** A call [predictIcdCode(input)] over [table] returns [result]. *)
Definition returns (table : list Sample.t) (input : string)
  (result : PredictionResult.t) : Prop :=
  Loop.run (trim (toLowerCase input)) (Loop.mk table fallback) result.

(** ** The Matcher as the specification words it *)

Module Spec.

(** Lowercase the input, trim it, split on single spaces. *)
Definition inputTokens (input : string) : list string :=
  split " " (trim (toLowerCase input)).

(** Lowercase the label, split on single spaces. *)
Definition labelTokens (label : string) : list string :=
  split " " (toLowerCase label).

(** Some input token is a substring of the label token, or the label
    token is a substring of it. *)
Definition matched (input : string) (labelToken : string) : bool :=
  existsb
    (fun inputToken =>
       includes labelToken inputToken || includes inputToken labelToken)
    (inputTokens input).

Definition matchedLabelTokenCount (input label : string) : nat :=
  List.length (filter (matched input) (labelTokens label)).

Definition totalLabelTokenCount (label : string) : nat :=
  List.length (labelTokens label).

(** min(0.95, (m / n) * 0.9 + 0.1) *)
Definition score (input label : string) : number :=
  Math_min n0_95
    (add (mul (div (of_nat (matchedLabelTokenCount input label))
                   (of_nat (totalLabelTokenCount label)))
              n0_9)
         n0_1).

(** The running best over the entries in table order: replaced when, and
    only when, the entry's score strictly exceeds its confidence. *)
Fixpoint scan (input : string) (best : PredictionResult.t)
  (entries : list Sample.t) : PredictionResult.t :=
  match entries with
  | [] => best
  | entry :: rest =>
      let s := score input (Sample.diagnosis entry) in
      if lt (PredictionResult.confidence best) s
      then scan input
                (PredictionResult.mk (Sample.code entry) s
                                     (Sample.diagnosis entry))
                rest
      else scan input best rest
  end.

Definition matcher (table : list Sample.t) (input : string)
  : PredictionResult.t :=
  scan input fallback table.

End Spec.

(** ** What the component displays *)

Module Display.

Definition n0_8 : number := Eval vm_compute in decimal 8%Z 10%Z.
Definition n0_6 : number := Eval vm_compute in decimal 6%Z 10%Z.
Definition n0_4 : number := Eval vm_compute in decimal 4%Z 10%Z.
Definition n0_55 : number := Eval vm_compute in decimal 55%Z 100%Z.
Definition n0_7 : number := Eval vm_compute in decimal 7%Z 10%Z.
Definition n0_775 : number := Eval vm_compute in decimal 775%Z 1000%Z.
Definition n100 : number := Eval vm_compute in of_Z 100%Z.

(** [getConfidenceColor(confidence)] *)
Definition getConfidenceColor (confidence : number) : string :=
  if ge confidence n0_8 then "success"
  else if ge confidence n0_6 then "warning"
  else "destructive".

(** The elements [getConfidenceIcon] returns, all of class "h-4 w-4". *)
Inductive icon : Type := CheckCircle | Clock | AlertCircle.

(** [getConfidenceIcon(confidence)] *)
Definition getConfidenceIcon (confidence : number) : icon :=
  if ge confidence n0_8 then CheckCircle
  else if ge confidence n0_6 then Clock
  else AlertCircle.

Definition highText : string :=
  "High confidence - Ready for automated processing".
Definition mediumText : string :=
  "Medium confidence - Consider manual review".
Definition lowText : string :=
  "Low confidence - Manual review required".

(** The children of the "Confidence Interpretation" block after the
    heading: each [{condition && <span>...</span>}] contributes its span
    when the condition holds and nothing otherwise.  A span is given by its
    [className] and its text. *)
Definition interpretation (confidence : number) : list (string * string) :=
  ((if ge confidence n0_8 then [("ml-2 text-success", highText)] else []) ++
   (if ge confidence n0_6 && lt confidence n0_8
    then [("ml-2 text-warning", mediumText)] else []) ++
   (if lt confidence n0_6
    then [("ml-2 text-destructive", lowText)] else []))%list.

(** Results of [Number.prototype.toFixed]: a text, the RangeError of a
    digit count above 100, or the case of a magnitude of 10^21 or more,
    where ECMAScript hands over to Number::toString, which is not modelled
    here. *)
Inductive fixed : Type :=
| Text (s : string)
| RangeError
| Delegated.

(** The decimal digits of a non-negative integer, "0" for zero. *)
Definition digitsOf (n : Z) : string :=
  NilZero.string_of_uint (N.to_uint (Z.to_N n)).

Fixpoint zeros (k : nat) : string :=
  match k with
  | O => ""
  | S k' => String "0" (zeros k')
  end.

(** The digits of [n] with a point before the last [f] of them, padded on
    the left with zeros up to [f + 1] digits. *)
Definition pointed (f : nat) (n : Z) : string :=
  let m := digitsOf n in
  if (f =? 0)%nat then m
  else
    let m := if (String.length m <=? f)%nat
             then zeros (f + 1 - String.length m) ++ m else m in
    let k := String.length m in
    substring 0 (k - f) m ++ "." ++ substring (k - f) f m.

(** For x = m * 2^e > 0, the integer n for which n / 10^f - x is as close
    to zero as possible, the larger one when there are two:
    floor (x * 10^f + 1/2). *)
Definition nearestScaled (f : nat) (m : positive) (e : Z) : Z :=
  let p := (Zpos m * 10 ^ Z.of_nat f)%Z in
  match e with
  | Zneg k => ((2 * p + 2 ^ Zpos k) / 2 ^ (Zpos k + 1))%Z
  | _ => (p * 2 ^ e)%Z
  end.

(** m * 2^e >= 10^21 *)
Definition atLeast1e21 (m : positive) (e : Z) : bool :=
  match e with
  | Zneg k => (10 ^ 21 * 2 ^ Zpos k <=? Zpos m)%Z
  | _ => (10 ^ 21 <=? Zpos m * 2 ^ e)%Z
  end.

(** [x.toFixed(f)] *)
Definition toFixed (f : nat) (x : number) : fixed :=
  if (100 <? f)%nat then RangeError
  else
    match x with
    | S754_nan => Text "NaN"
    | S754_infinity false => Text "Infinity"
    | S754_infinity true => Text "-Infinity"
    | S754_zero _ => Text (pointed f 0)
    | S754_finite s m e =>
        if atLeast1e21 m e then Delegated
        else Text ((if s then "-" else "") ++ pointed f (nearestScaled f m e))
    end.

(** [(confidence * 100).toFixed(1)], the figure of the badge and of the
    closing notification. *)
Definition percentage (confidence : number) : fixed :=
  toFixed 1 (mul confidence n100).

End Display.

(** ** The component's state and its handlers *)

Module Component.

(** The calls of [toast] the component makes: the warning of
    [handlePredict] (title "Please enter diagnosis text", variant
    "destructive") and the closing notification of the timer callback
    (title "Prediction Complete", its description built from the
    confidence of the result). *)
Inductive toast : Type :=
| EnterText
| Complete (confidence : number).

Definition title (t : toast) : string :=
  match t with
  | EnterText => "Please enter diagnosis text"
  | Complete _ => "Prediction Complete"
  end.

Definition variant (t : toast) : option string :=
  match t with
  | EnterText => Some "destructive"
  | Complete _ => None
  end.

(** The three [useState] cells, the callbacks handed to [setTimeout] that
    have not run yet (each one is determined by the [diagnosisText] of the
    render that created it; all have the same delay, so they run in the
    order of their creation), and the calls of [toast] made so far. *)
Record state : Type := mk {
  diagnosisText : string;
  isLoading : bool;
  prediction : option PredictionResult.t;
  timers : list string;
  toasts : list toast
}.

(** The first render. *)
Definition initial : state := mk "" false None [] [].

(** [onChange={(e) => setDiagnosisText(e.target.value)}] *)
Definition onChange (value : string) (st : state) : state :=
  mk value (isLoading st) (prediction st) (timers st) (toasts st).

(** [handlePredict()] *)
Definition handlePredict (st : state) : state :=
  if String.eqb (trim (diagnosisText st)) ""
  then mk (diagnosisText st) (isLoading st) (prediction st) (timers st)
          (toasts st ++ [EnterText])
  else mk (diagnosisText st) true (prediction st)
          (timers st ++ [diagnosisText st]) (toasts st).

(** The function handed to [setTimeout], with the [diagnosisText] its
    closure holds. *)
Definition timerCallback (diagnosisText : string) (st : state) : state :=
  let result := predictIcdCode diagnosisText in
  mk (Component.diagnosisText st) false (Some result) (timers st)
     (toasts st ++ [Complete (PredictionResult.confidence result)]).

(** What can happen to the rendered component. *)
Inductive event : Type :=
| Change (value : string)
| Click
| Timeout.

(** The effect of an event, [None] when it cannot occur: the button is
    [disabled={isLoading}], and a timer runs only if one is pending. *)
Definition fire (e : event) (st : state) : option state :=
  match e with
  | Change value => Some (onChange value st)
  | Click => if isLoading st then None else Some (handlePredict st)
  | Timeout =>
      match timers st with
      | [] => None
      | captured :: rest =>
          Some (timerCallback captured
                  (mk (diagnosisText st) (isLoading st) (prediction st)
                      rest (toasts st)))
      end
  end.

Fixpoint fireAll (es : list event) (st : state) : option state :=
  match es with
  | [] => Some st
  | e :: es' =>
      match fire e st with
      | Some st' => fireAll es' st'
      | None => None
      end
  end.

(** The states the component can be in. *)
Definition reachable (st : state) : Prop :=
  exists es, fireAll es initial = Some st.

(** Whether the results card is rendered: [{prediction && (...)}]. *)
Definition showsResults (st : state) : bool :=
  match prediction st with Some _ => true | None => false end.

(** The loading flag is set exactly while one timer is pending, and the
    text a pending timer holds is not blank. *)
Definition loadingInvariant (st : state) : Prop :=
  (isLoading st = true /\
   exists text, timers st = [text] /\ allWhiteSpace text = false) \/
  (isLoading st = false /\ timers st = []).



(** The prediction, if any, is that of a text that is not blank. *)
Definition predictionInvariant (st : state) : Prop :=
  prediction st = None \/
  exists text,
    allWhiteSpace text = false /\
    prediction st = Some (predictIcdCode text).

End Component.

(** * Properties *)

(** ** The primitives on small inputs *)

Example toLowerCase_mixed : toLowerCase "Type 2 Diabetes" = "type 2 diabetes".
Proof. reflexivity. Qed.

Example trim_both_ends : trim "  acute  bronchitis " = "acute  bronchitis".
Proof. reflexivity. Qed.

Example split_keeps_empty_pieces :
  split " " "a  b " = ["a"; ""; "b"; ""] /\ split " " "" = [""].
Proof. split; reflexivity. Qed.

Example includes_positions :
  includes "diabetes" "bet" = true /\ includes "bet" "diabetes" = false /\
  includes "asthma" "asthma" = true /\ includes "" "" = true.
Proof. repeat split. Qed.

(** The literals of the source, as sign, 53-bit significand and exponent. *)
Example literals :
  n0_95 = S754_finite false 8556839292003942 (-53) /\
  n0_9 = S754_finite false 8106479329266893 (-53) /\
  n0_1 = S754_finite false 7205759403792794 (-56) /\
  n0_3 = S754_finite false 5404319552844595 (-54) /\
  n0_325 = S754_finite false 5854679515581645 (-54).
Proof. repeat split. Qed.

Example Math_min_cases :
  Math_min n0_95 n1 = n0_95 /\ Math_min n0_95 n0_1 = n0_1 /\
  Math_min n0_95 S754_nan = S754_nan /\
  Math_min (S754_zero false) (S754_zero true) = S754_zero true.
Proof. repeat split. Qed.
(** ** The order of binary64 values *)

Section NumberOrder.

Ltac cmp_cases :=
  repeat match goal with
    | H : context [Z.compare ?a ?b] |- _ =>
        destruct (Z.compare_spec a b); simpl in *
    | |- context [Z.compare ?a ?b] =>
        destruct (Z.compare_spec a b); simpl in *
    | H : context [Pos.compare_cont Eq ?a ?b] |- _ =>
        change (Pos.compare_cont Eq a b) with (Pos.compare a b) in *;
        destruct (Pos.compare_spec a b); simpl in *
    | |- context [Pos.compare_cont Eq ?a ?b] =>
        change (Pos.compare_cont Eq a b) with (Pos.compare a b) in *;
        destruct (Pos.compare_spec a b); simpl in *
    end;
  simpl in *; try discriminate; try reflexivity; try lia.

Ltac by_cases :=
  unfold lt, le, gt, ge, SFltb, SFleb;
  repeat match goal with
    | x : number |- _ => destruct x as [[]|[]| |[] ? ?]
    end;
  simpl; try discriminate; try reflexivity; intros; cmp_cases.

Lemma lt_trans (a b c : number) :
  lt a b = true -> lt b c = true -> lt a c = true.
Proof. by_cases. Qed.

Lemma le_trans (a b c : number) :
  le a b = true -> le b c = true -> le a c = true.
Proof. by_cases. Qed.

Lemma le_lt_trans (a b c : number) :
  le a b = true -> lt b c = true -> lt a c = true.
Proof. by_cases. Qed.

(** A value that is not above [p] is strictly below whatever is strictly
    above [p]; a NaN is below nothing. *)
Lemma lt_not_lt_not_le (p x y : number) :
  lt p x = true -> lt p y = false -> le x y = false.
Proof. by_cases. Qed.

Lemma lt_le (a b : number) : lt a b = true -> le a b = true.
Proof. unfold lt, le, SFltb, SFleb. destruct (SFcompare a b) as [[]|]; easy. Qed.

Lemma lt_not_le (a b : number) : lt a b = true -> le b a = false.
Proof. by_cases. Qed.

Lemma lt_irrefl (a : number) : lt a a = false.
Proof. by_cases. Qed.

Lemma gt_lt (a b : number) : gt a b = lt b a.
Proof. reflexivity. Qed.

Lemma lt_not_NaN_r (a b : number) : lt a b = true -> isNaN b = false.
Proof. by_cases. Qed.

(** [Math.min(x, y)] is at most [x] unless it is NaN. *)
Lemma Math_min_le_l (x y : number) :
  isNaN (Math_min x y) = false -> le (Math_min x y) x = true.
Proof.
  unfold Math_min.
  destruct x as [[]|[]| |[] ? ?], y as [[]|[]| |[] ? ?];
    unfold le, SFleb; simpl; try discriminate; try reflexivity;
    intros; cmp_cases.
Qed.

End NumberOrder.

(** ** Rounding never produces NaN from non-negative operands *)

Section NumberRounding.

Lemma digits2_pos_iter (p k : positive) :
  digits2_pos (Pos.iter xO p k) = (digits2_pos p + k)%positive.
Proof.
  induction k as [|k IH] using Pos.peano_ind.
  - simpl. lia.
  - rewrite Pos.iter_succ. simpl. rewrite IH. lia.
Qed.

Lemma digits2_pos_lower (p : positive) :
  (2 ^ (Zpos (digits2_pos p) - 1) <= Zpos p)%Z.
Proof.
  induction p as [p IH | p IH |]; cbn [digits2_pos].
  - rewrite Pos2Z.inj_succ.
    replace (Z.succ (Zpos (digits2_pos p)) - 1)%Z
      with (Z.succ (Zpos (digits2_pos p) - 1)) by lia.
    rewrite Z.pow_succ_r by lia. lia.
  - rewrite Pos2Z.inj_succ.
    replace (Z.succ (Zpos (digits2_pos p)) - 1)%Z
      with (Z.succ (Zpos (digits2_pos p) - 1)) by lia.
    rewrite Z.pow_succ_r by lia. lia.
  - simpl. lia.
Qed.

Lemma digits2_pos_small (p : positive) :
  (Zpos p < 2 ^ 53)%Z -> (Zpos (digits2_pos p) <= 53)%Z.
Proof.
  intros Hp. pose proof (digits2_pos_lower p) as Hl.
  destruct (Z.le_gt_cases (Zpos (digits2_pos p)) 53) as [H | H]; [exact H|].
  exfalso.
  assert (2 ^ 53 <= 2 ^ (Zpos (digits2_pos p) - 1))%Z
    by (apply Z.pow_le_mono_r; lia).
  lia.
Qed.

(** A significand of exactly 53 bits is kept as it is. *)
Lemma shr_fexp_canonical (m : positive) (e : Z) :
  Zpos (digits2_pos m) = 53%Z -> (-1074 <= e)%Z ->
  shr_fexp prec emax (Zpos m) e loc_Exact =
  (Build_shr_record (Zpos m) false false, e).
Proof.
  intros Hd He. unfold shr_fexp, fexp, emin, prec, emax.
  cbn [Zdigits2 shr_record_of_loc]. rewrite Hd.
  replace (Z.max (53 + e - 53) (3 - 1024 - 53) - e)%Z with 0%Z by lia.
  reflexivity.
Qed.

Lemma binary_round_aux_canonical (s : bool) (m : positive) (e : Z) :
  Zpos (digits2_pos m) = 53%Z -> (-1074 <= e <= 971)%Z ->
  binary_round_aux prec emax s (Zpos m) e loc_Exact = S754_finite s m e.
Proof.
  intros Hd He. unfold binary_round_aux.
  rewrite (shr_fexp_canonical m e Hd) by lia.
  cbn [shr_m loc_of_shr_record round_nearest_even].
  rewrite (shr_fexp_canonical m e Hd) by lia.
  cbn [shr_m].
  replace (e <=? emax - prec)%Z with true; [reflexivity|].
  symmetry. apply Z.leb_le. unfold emax, prec. lia.
Qed.

Lemma binary_round_small (s : bool) (p : positive) :
  (Zpos (digits2_pos p) <= 53)%Z ->
  exists m e, binary_round prec emax s p 0 = S754_finite s m e.
Proof.
  intros Hd. unfold binary_round, shl_align, fexp, emin, prec, emax.
  replace (Z.max (Zpos (digits2_pos p) + 0 - 53) (3 - 1024 - 53))%Z
    with (Zpos (digits2_pos p) - 53)%Z by lia.
  rewrite Z.sub_0_r.
  destruct (Zpos (digits2_pos p) - 53)%Z as [|k|k] eqn:Hk.
  - exists p, 0%Z. apply binary_round_aux_canonical; lia.
  - lia.
  - exists (Pos.iter xO p k), (Zneg k).
    apply binary_round_aux_canonical.
    + rewrite digits2_pos_iter. lia.
    + lia.
Qed.

(** An integer from 1 to 2^53 - 1 is a finite positive number. *)
Lemma of_Z_finite (z : Z) :
  (1 <= z < 2 ^ 53)%Z -> exists m e, of_Z z = S754_finite false m e.
Proof.
  intros Hz. unfold of_Z. destruct z as [|p|p]; try lia.
  cbn [binary_normalize]. apply binary_round_small.
  apply digits2_pos_small. lia.
Qed.

Lemma shr_1_nonneg (mrs : shr_record) :
  (0 <= shr_m mrs)%Z -> (0 <= shr_m (shr_1 mrs))%Z.
Proof.
  destruct mrs as [m r s]. cbn [shr_m].
  destruct m as [|[p|p|]|p]; cbn [shr_1 shr_m]; lia.
Qed.

Lemma iter_shr_1_nonneg (p : positive) (mrs : shr_record) :
  (0 <= shr_m mrs)%Z -> (0 <= shr_m (iter_pos shr_1 p mrs))%Z.
Proof.
  revert mrs. induction p as [p IH | p IH |]; intros mrs H; cbn [iter_pos].
  - apply IH, IH, shr_1_nonneg, H.
  - apply IH, IH, H.
  - apply shr_1_nonneg, H.
Qed.

Lemma shr_fexp_nonneg (m e : Z) (l : location) :
  (0 <= m)%Z -> (0 <= shr_m (fst (shr_fexp prec emax m e l)))%Z.
Proof.
  intros Hm. unfold shr_fexp, shr.
  assert (H0 : (0 <= shr_m (shr_record_of_loc m l))%Z)
    by (destruct l as [|[]]; exact Hm).
  destruct (fexp prec emax (Zdigits2 m + e) - e)%Z; cbn [fst]; auto.
  now apply iter_shr_1_nonneg.
Qed.

Lemma round_nearest_even_nonneg (m : Z) (l : location) :
  (0 <= m)%Z -> (0 <= round_nearest_even m l)%Z.
Proof.
  intros Hm. destruct l as [|[]]; cbn [round_nearest_even]; try lia.
  destruct (Z.even m); lia.
Qed.

(** Rounding a non-negative significand gives zero, a finite number or an
    infinity of the requested sign. *)
Lemma binary_round_aux_signed (s : bool) (m e : Z) (l : location) :
  (0 <= m)%Z -> signed s (binary_round_aux prec emax s m e l).
Proof.
  intros Hm. unfold binary_round_aux.
  pose proof (shr_fexp_nonneg m e l Hm) as H1.
  destruct (shr_fexp prec emax m e l) as [mrs' e']. cbn [fst] in H1.
  pose proof (shr_fexp_nonneg _ e' loc_Exact
                (round_nearest_even_nonneg _ (loc_of_shr_record mrs') H1))
    as H2.
  destruct (shr_fexp prec emax
              (round_nearest_even (shr_m mrs') (loc_of_shr_record mrs'))
              e' loc_Exact) as [mrs'' e''].
  cbn [fst] in H2. unfold signed.
  destruct (shr_m mrs'') as [|q|q].
  - now left.
  - destruct (e'' <=? emax - prec)%Z; [right; right; eauto | right; now left].
  - lia.
Qed.

Lemma binary_round_signed (s : bool) (m : positive) (e : Z) :
  signed s (binary_round prec emax s m e).
Proof.
  unfold binary_round.
  destruct (shl_align m e (fexp prec emax (Zpos (digits2_pos m) + e)))
    as [mz ez].
  apply binary_round_aux_signed. lia.
Qed.

Lemma of_Z_signed (z : Z) : (0 <= z)%Z -> signed false (of_Z z).
Proof.
  intros Hz. unfold of_Z. destruct z as [|p|p]; cbn [binary_normalize].
  - now left.
  - apply binary_round_signed.
  - lia.
Qed.

Lemma div_signed (x : number) (my : positive) (ey : Z) :
  signed false x -> signed false (div x (S754_finite false my ey)).
Proof.
  unfold div.
  intros [-> | [-> | (mx & ex & ->)]].
  - now left.
  - right. now left.
  - cbn [SFdiv xorb]. unfold SFdiv_core_binary.
    set (m' := match _ with Zpos _ => _ | Z0 => _ | Zneg _ => _ end).
    assert (Hm' : (0 <= m')%Z).
    { subst m'.
      destruct (ex - ey -
                Z.min (fexp prec emax (Zdigits2 (Zpos mx) + ex -
                                       (Zdigits2 (Zpos my) + ey)))
                      (ex - ey))%Z; try lia.
      apply Z.shiftl_nonneg. lia. }
    pose proof (Z.div_pos m' (Zpos my) Hm' ltac:(lia)) as Hq.
    unfold Z.div in Hq.
    destruct (Z.div_eucl m' (Zpos my)) as [q r]. cbn [fst] in Hq.
    now apply binary_round_aux_signed.
Qed.

Lemma mul_signed (x : number) (my : positive) (ey : Z) :
  signed false x -> signed false (mul x (S754_finite false my ey)).
Proof.
  unfold mul.
  intros [-> | [-> | (mx & ex & ->)]]; cbn [SFmul xorb].
  - now left.
  - right. now left.
  - apply binary_round_aux_signed. lia.
Qed.

Lemma add_signed (x : number) (my : positive) (ey : Z) :
  signed false x -> signed false (add x (S754_finite false my ey)).
Proof.
  unfold add.
  intros [-> | [-> | (mx & ex & ->)]]; cbn [SFadd].
  - right. right. eauto.
  - right. now left.
  - cbn [cond_Zopp Z.add binary_normalize]. apply binary_round_signed.
Qed.

Lemma Math_min_signed (my : positive) (ey : Z) (x : number) :
  signed false x -> signed false (Math_min (S754_finite false my ey) x).
Proof.
  intros [-> | [-> | (mx & ex & ->)]]; unfold Math_min;
    match goal with
    | |- context [SFcompare ?a ?b] =>
        destruct (SFcompare a b) as [[]|] eqn:E
    end;
    try (cbn in E; discriminate E); cbn; unfold signed; eauto 6.
Qed.

Lemma signed_not_NaN (s : bool) (x : number) : signed s x -> isNaN x = false.
Proof. intros [-> | [-> | (m & e & ->)]]; reflexivity. Qed.

(** With a divisor from 1 to 2^53 - 1, the quotient and the score are
    non-negative numbers, never NaN. *)
Lemma scoreOf_signed (matched total : nat) :
  (1 <= Z.of_nat total < 2 ^ 53)%Z ->
  signed false (div (of_nat matched) (of_nat total)) /\
  signed false (scoreOf matched total).
Proof.
  intros Ht. unfold scoreOf, of_nat.
  destruct (of_Z_finite (Z.of_nat total) Ht) as (m & e & ->).
  assert (Hq : signed false
                 (div (of_Z (Z.of_nat matched)) (S754_finite false m e))).
  { apply div_signed, of_Z_signed. lia. }
  split; [exact Hq|].
  apply Math_min_signed, add_signed, mul_signed, Hq.
Qed.

End NumberRounding.
(** ** Facts on the string primitives *)

Section StringFacts.

Lemma lower_unit_idem (c : ascii) : lower_unit (lower_unit c) = lower_unit c.
Proof. destruct c as [[] [] [] [] [] [] [] []]; reflexivity. Qed.

Lemma toLowerCase_idem (s : string) :
  toLowerCase (toLowerCase s) = toLowerCase s.
Proof.
  induction s as [|c s IH]; simpl.
  - reflexivity.
  - now rewrite lower_unit_idem, IH.
Qed.

Lemma isWhiteSpace_lower_unit (c : ascii) :
  isWhiteSpace (lower_unit c) = isWhiteSpace c.
Proof. destruct c as [[] [] [] [] [] [] [] []]; reflexivity. Qed.

Lemma allWhiteSpace_toLowerCase (s : string) :
  allWhiteSpace (toLowerCase s) = allWhiteSpace s.
Proof.
  induction s as [|c s IH]; simpl.
  - reflexivity.
  - now rewrite isWhiteSpace_lower_unit, IH.
Qed.

Lemma trimStart_allWhiteSpace (s : string) :
  allWhiteSpace s = true -> trimStart s = "".
Proof.
  induction s as [|c s IH]; simpl.
  - reflexivity.
  - intros H. apply andb_true_iff in H as [Hc Hs]. now rewrite Hc, IH.
Qed.

Lemma trim_allWhiteSpace (s : string) :
  allWhiteSpace s = true -> trim s = "".
Proof. intros H. unfold trim. now rewrite trimStart_allWhiteSpace. Qed.

Lemma split_cons (sep : ascii) (s : string) :
  exists w ws, split sep s = w :: ws.
Proof.
  induction s as [|c s (w & ws & IH)]; simpl.
  - now exists "", [].
  - destruct (Ascii.eqb c sep).
    + now exists "", (split sep s).
    + rewrite IH. now exists (String c w), ws.
Qed.

Lemma split_length (sep : ascii) (s : string) :
  1 <= List.length (split sep s).
Proof. destruct (split_cons sep s) as (w & ws & ->). simpl. lia. Qed.

Lemma includes_empty (s : string) : includes s "" = true.
Proof. destruct s; reflexivity. Qed.

End StringFacts.

(** ** Facts on the counting loop *)

Section Counting.

Variable inputWords : list string.

Let bump (count : nat) (word : string) : nat :=
  if someMatch inputWords word then S count else count.

Lemma count_from (sampleWords : list string) (start : nat) :
  fold_left bump sampleWords start =
  start + List.length (filter (someMatch inputWords) sampleWords).
Proof.
  revert start.
  induction sampleWords as [|w ws IH]; intros start; simpl.
  - lia.
  - rewrite IH. unfold bump. destruct (someMatch inputWords w); simpl; lia.
Qed.

Lemma matchCount_filter (sampleWords : list string) :
  matchCount inputWords sampleWords =
  List.length (filter (someMatch inputWords) sampleWords).
Proof. exact (count_from sampleWords 0). Qed.

Lemma matchCount_le (sampleWords : list string) :
  matchCount inputWords sampleWords <= List.length sampleWords.
Proof. rewrite matchCount_filter. apply filter_length_le. Qed.

Lemma someMatch_empty_token (word : string) :
  In "" inputWords -> someMatch inputWords word = true.
Proof.
  intros H. unfold someMatch. apply existsb_exists.
  exists "". split; [exact H|].
  rewrite (includes_empty word). apply orb_true_r.
Qed.

Lemma matchCount_all (sampleWords : list string) :
  In "" inputWords ->
  matchCount inputWords sampleWords = List.length sampleWords.
Proof.
  intros H. rewrite matchCount_filter.
  induction sampleWords as [|w ws IH]; simpl.
  - reflexivity.
  - now rewrite someMatch_empty_token, <- IH.
Qed.

End Counting.

(** ** Facts on the loop *)

Section LoopFacts.

Variable normalizedInput : string.

Lemma step_iteration sample rest best :
  Loop.step normalizedInput (Loop.mk (sample :: rest) best)
            (Loop.mk rest (iteration normalizedInput best sample)).
Proof.
  unfold iteration.
  destruct (gt (confidenceOf normalizedInput sample)
               (PredictionResult.confidence best)) eqn:E.
  - now apply Loop.step_replace.
  - now apply Loop.step_keep.
Qed.

Lemma step_functional st st1 st2 :
  Loop.step normalizedInput st st1 ->
  Loop.step normalizedInput st st2 -> st1 = st2.
Proof.
  intros H1 H2.
  inversion H1; subst; inversion H2; subst; congruence.
Qed.

Lemma run_fold table best :
  Loop.run normalizedInput (Loop.mk table best)
           (fold_left (iteration normalizedInput) table best).
Proof.
  revert best. induction table as [|sample rest IH]; intros best; simpl.
  - apply Loop.run_return.
  - eapply Loop.run_step; [apply step_iteration | apply IH].
Qed.

Lemma run_functional st r1 r2 :
  Loop.run normalizedInput st r1 ->
  Loop.run normalizedInput st r2 -> r1 = r2.
Proof.
  intros H1. revert r2.
  induction H1 as [best | st st' r1 Hs _ IH]; intros r2 H2.
  - inversion H2 as [| ? ? ? Hs']; subst; [reflexivity | inversion Hs'].
  - inversion H2 as [| ? st'' ? Hs' Hr']; subst; [inversion Hs |].
    rewrite (step_functional _ _ _ Hs Hs') in IH. now apply IH.
Qed.

End LoopFacts.

(** ** Which entry the loop selects *)

Section Selection.

Variable normalizedInput : string.

Let sc := confidenceOf normalizedInput.
Let winner (sample : Sample.t) : PredictionResult.t :=
  PredictionResult.mk (Sample.code sample) (sc sample)
                      (Sample.diagnosis sample).

(** From any value of [bestMatch], the loop returns either that value,
    no entry scoring above it, or the first entry of maximal score. *)
Lemma fold_selects table best :
  let result := fold_left (iteration normalizedInput) table best in
  (result = best /\
   forall e, In e table ->
             gt (sc e) (PredictionResult.confidence best) = false)
  \/
  (exists before e after,
      table = (before ++ e :: after)%list /\
      result = winner e /\
      gt (sc e) (PredictionResult.confidence best) = true /\
      (forall e', In e' before -> le (sc e) (sc e') = false) /\
      (forall e', In e' after -> gt (sc e') (sc e) = false)).
Proof.
  revert best. induction table as [|s rest IH]; intros best; simpl.
  - left. split; [reflexivity | intros e []].
  - replace (iteration normalizedInput best s)
      with (if gt (sc s) (PredictionResult.confidence best)
            then winner s else best) by reflexivity.
    destruct (gt (sc s) (PredictionResult.confidence best)) eqn:Hs.
    + right. destruct (IH (winner s)) as [[Hr Hall] | Hex].
      * exists [], s, rest.
        split; [reflexivity|]. split; [exact Hr|]. split; [exact Hs|].
        split; [intros e' []|exact Hall].
      * destruct Hex as (before & e & after & Ht & Hr & Hgt & Hb & Ha).
        simpl in Hgt.
        exists (s :: before), e, after.
        split; [now rewrite Ht|]. split; [exact Hr|].
        split; [rewrite gt_lt in *; eapply lt_trans; eassumption|].
        split; [|exact Ha].
        intros e' [<- | Hin]; [|now apply Hb].
        apply lt_not_le. exact Hgt.
    + destruct (IH best) as [[Hr Hall] | Hex].
      * left. split; [exact Hr|].
        intros e [<- | Hin]; [exact Hs | now apply Hall].
      * right.
        destruct Hex as (before & e & after & Ht & Hr & Hgt & Hb & Ha).
        exists (s :: before), e, after.
        split; [now rewrite Ht|]. split; [exact Hr|].
        split; [exact Hgt|]. split; [|exact Ha].
        intros e' [<- | Hin]; [|now apply Hb].
        rewrite gt_lt in *. eapply lt_not_lt_not_le; eassumption.
Qed.

End Selection.

(** ** The claims *)

Lemma someMatch_matched (input word : string) :
  someMatch (split " " (trim (toLowerCase input))) word =
  Spec.matched input word.
Proof.
  unfold someMatch, Spec.matched, Spec.inputTokens.
  induction (split " " (trim (toLowerCase input))) as [|w ws IH]; simpl.
  - reflexivity.
  - now rewrite IH, (orb_comm (includes w word)).
Qed.

Lemma confidenceOf_score (input : string) (sample : Sample.t) :
  confidenceOf (trim (toLowerCase input)) sample =
  Spec.score input (Sample.diagnosis sample).
Proof.
  unfold confidenceOf, Spec.score, scoreOf, sampleWordsOf,
    Spec.matchedLabelTokenCount, Spec.totalLabelTokenCount, Spec.labelTokens.
  rewrite matchCount_filter.
  now rewrite (filter_ext _ _ (someMatch_matched input)).
Qed.

(** C1.  For every input and every reference entry, the value of
    [confidence] computed in the loop body is
    min(0.95, (m / n) * 0.9 + 0.1), where n counts the tokens of the
    lowercased label split on single spaces and m counts those label tokens
    that contain, or are contained in, some token of the lowercased, trimmed
    and split input. *)
Theorem C1_entry_score (input : string) (sample : Sample.t) :
  let label := Sample.diagnosis sample in
  let n := List.length (split " " (toLowerCase label)) in
  let m := List.length (filter (Spec.matched input)
                               (split " " (toLowerCase label))) in
  confidenceOf (trim (toLowerCase input)) sample =
  Math_min n0_95 (add (mul (div (of_nat m) (of_nat n)) n0_9) n0_1).
Proof. intros label n m. apply confidenceOf_score. Qed.

Lemma fold_scan (input : string) (table : list Sample.t)
  (best : PredictionResult.t) :
  fold_left (iteration (trim (toLowerCase input))) table best =
  Spec.scan input best table.
Proof.
  revert best.
  induction table as [|entry rest IH]; intros best; cbn [fold_left Spec.scan].
  - reflexivity.
  - rewrite IH. unfold iteration.
    rewrite confidenceOf_score, gt_lt.
    now destruct (lt (PredictionResult.confidence best)
                     (Spec.score input (Sample.diagnosis entry))).
Qed.

(** C2.  The result is the running best of a scan of the table in order
    that starts from the fallback and replaces the running best exactly when
    an entry's score is strictly above its confidence.  Hence the result is
    either the fallback, no entry scoring above 0.3, or the entry of maximal
    score that comes first in the table, reported with its code, its score
    and its diagnosis text as written in the table. *)
Theorem C2_running_best (table : list Sample.t) (input : string) :
  let result := predictIcdCodeOver table input in
  let score := fun e => Spec.score input (Sample.diagnosis e) in
  result = Spec.matcher table input /\
  returns table input result /\
  ((result = fallback /\
    forall e, In e table -> gt (score e) n0_3 = false)
   \/
   (exists before e after,
       table = (before ++ e :: after)%list /\
       result = PredictionResult.mk (Sample.code e) (score e)
                                    (Sample.diagnosis e) /\
       gt (score e) n0_3 = true /\
       (forall e', In e' before -> le (score e) (score e') = false) /\
       (forall e', In e' after -> gt (score e') (score e) = false))).
Proof.
  intros result score.
  split; [exact (fold_scan input table fallback)|].
  split; [exact (run_fold (trim (toLowerCase input)) table fallback)|].
  destruct (fold_selects (trim (toLowerCase input)) table fallback)
    as [[Hr Hall] | (before & e & after & Ht & Hr & Hgt & Hb & Ha)].
  - left. split; [exact Hr|].
    intros e Hin. unfold score. rewrite <- confidenceOf_score.
    now apply Hall.
  - right. exists before, e, after. unfold score.
    split; [exact Ht|].
    split; [now rewrite <- confidenceOf_score|].
    split; [now rewrite <- confidenceOf_score|].
    split.
    + intros e' Hin. rewrite <- !confidenceOf_score. now apply Hb.
    + intros e' Hin. rewrite <- !confidenceOf_score. now apply Ha.
Qed.

(** Over any table: the result is the fallback, or an entry of the table
    reported with a confidence strictly above 0.3. *)
Lemma result_cases (table : list Sample.t) (input : string) :
  let result := predictIcdCodeOver table input in
  result = fallback \/
  exists e,
    In e table /\
    result = PredictionResult.mk
               (Sample.code e)
               (confidenceOf (trim (toLowerCase input)) e)
               (Sample.diagnosis e) /\
    gt (PredictionResult.confidence result) n0_3 = true.
Proof.
  destruct (fold_selects (trim (toLowerCase input)) table fallback)
    as [[Hr _] | (before & e & after & Ht & Hr & Hgt & _)].
  - left. exact Hr.
  - right. exists e. split; [|split].
    + rewrite Ht. apply in_or_app. right. now left.
    + exact Hr.
    + unfold predictIcdCodeOver. rewrite Hr. exact Hgt.
Qed.

(** Over any table the confidence of the result lies between 0.3 and
    0.95. *)
Lemma confidence_bounds (table : list Sample.t) (input : string) :
  let c := PredictionResult.confidence (predictIcdCodeOver table input) in
  le n0_3 c = true /\ le c n0_95 = true.
Proof.
  destruct (result_cases table input) as [Hr | (e & _ & Hr & Hgt)];
    cbv zeta in *.
  - rewrite Hr. split; reflexivity.
  - split; [apply lt_le; exact Hgt|].
    rewrite gt_lt in Hgt. apply lt_not_NaN_r in Hgt.
    rewrite Hr in *. cbn [PredictionResult.confidence] in *.
    unfold confidenceOf, scoreOf in *.
    now apply Math_min_le_l.
Qed.

(** C3.  The confidence of the result lies in [0, 0.95] and is at least
    0.3; a result whose code is not "Z00.00" has a confidence strictly above
    0.3, and a result whose code is "Z00.00" is the fallback, of confidence
    exactly 0.3. *)
Theorem C3_confidence_range (input : string) :
  let result := predictIcdCode input in
  let c := PredictionResult.confidence result in
  (le n0 c = true /\ le c n0_95 = true) /\
  le n0_3 c = true /\
  (PredictionResult.code result <> "Z00.00" -> gt c n0_3 = true) /\
  (PredictionResult.code result = "Z00.00" ->
   result = fallback /\ c = n0_3).
Proof.
  unfold predictIcdCode. cbv zeta.
  pose proof (confidence_bounds sampleData input) as [Hlo Hhi].
  pose proof (result_cases sampleData input) as Hcases.
  cbv zeta in Hcases.
  generalize dependent (predictIcdCodeOver sampleData input).
  intros result Hlo Hhi Hcases.
  split; [split; [|exact Hhi]|split; [exact Hlo|]].
  - apply (le_trans n0 n0_3); [reflexivity | exact Hlo].
  - destruct Hcases as [Hr | (e & Hin & Hr & Hgt)].
    + split.
      * intros Hne. exfalso. apply Hne. now rewrite Hr.
      * intros _. split; [exact Hr|]. now rewrite Hr.
    + split.
      * intros _. exact Hgt.
      * intros Hcode. exfalso. rewrite Hr in Hcode.
        cbn [PredictionResult.code] in Hcode.
        cbn [sampleData In] in Hin.
        repeat (destruct Hin as [<- | Hin]; [discriminate Hcode|]).
        exact Hin.
Qed.

(** An input with an empty token matches every label token, and every
    entry of [sampleData] then scores 0.95. *)
Lemma confidenceOf_empty_token (normalizedInput : string)
  (sample : Sample.t) :
  In "" (split " " normalizedInput) ->
  In sample sampleData ->
  matchCount (split " " normalizedInput) (sampleWordsOf sample) =
    List.length (sampleWordsOf sample) /\
  confidenceOf normalizedInput sample = n0_95.
Proof.
  intros Hempty Hin.
  split; [now apply matchCount_all|].
  unfold confidenceOf. rewrite (matchCount_all _ _ Hempty).
  cbn [sampleData In] in Hin.
  repeat (destruct Hin as [<- | Hin]; [vm_compute; reflexivity|]).
  destruct Hin.
Qed.

Lemma empty_token_of_white_space (input : string) :
  allWhiteSpace input = true ->
  split " " (trim (toLowerCase input)) = [""].
Proof.
  intros H. rewrite trim_allWhiteSpace; [reflexivity|].
  now rewrite allWhiteSpace_toLowerCase.
Qed.

(** C4.  When the input is empty or all white space, or more generally when
    the tokens of the normalized input include the empty string, every label
    token of every entry is counted as matched, every entry scores 0.95, and
    the result is the first entry of the table, not the fallback. *)
Theorem C4_empty_token (input : string) :
  allWhiteSpace input = true \/
  In "" (split " " (trim (toLowerCase input))) ->
  Forall
    (fun sample =>
       matchCount (split " " (trim (toLowerCase input)))
                  (sampleWordsOf sample) =
         List.length (sampleWordsOf sample) /\
       confidenceOf (trim (toLowerCase input)) sample = n0_95)
    sampleData /\
  predictIcdCode input =
    PredictionResult.mk "E11.9" n0_95 "Type 2 diabetes mellitus".
Proof.
  intros H.
  assert (Hempty : In "" (split " " (trim (toLowerCase input)))).
  { destruct H as [H | H]; [|exact H].
    rewrite (empty_token_of_white_space _ H). now left. }
  clear H.
  assert (Hall : forall sample, In sample sampleData ->
            matchCount (split " " (trim (toLowerCase input)))
                       (sampleWordsOf sample) =
              List.length (sampleWordsOf sample) /\
            confidenceOf (trim (toLowerCase input)) sample = n0_95).
  { intros sample Hin. now apply confidenceOf_empty_token. }
  split; [apply Forall_forall; exact Hall|].
  unfold predictIcdCode, predictIcdCodeOver, sampleData.
  cbn [fold_left]. unfold iteration.
  pose proof (fun sample Hin => proj2 (Hall sample Hin)) as Hscore.
  rewrite !Hscore by (cbn [sampleData In]; tauto).
  reflexivity.
Qed.

Lemma C4_empty_token_witness :
  (allWhiteSpace "   " = true /\
   predictIcdCode "   " =
     PredictionResult.mk "E11.9" n0_95 "Type 2 diabetes mellitus") /\
  (In "" (split " " (trim (toLowerCase "Kidney  disease"))) /\
   predictIcdCode "Kidney  disease" =
     PredictionResult.mk "E11.9" n0_95 "Type 2 diabetes mellitus").
Proof.
  split; split.
  - reflexivity.
  - apply (C4_empty_token "   "). left. reflexivity.
  - vm_compute. right. left. reflexivity.
  - apply (C4_empty_token "Kidney  disease"). right.
    vm_compute. right. left. reflexivity.
Defined.

(** C5.  On "Type 2 diabetes mellitus" the four label tokens of the first
    entry all match, its score is min(0.95, (4/4)*0.9 + 0.1) = 0.95, and the
    result is that entry with confidence 0.95. *)
Theorem C5_exact_match :
  let input := "Type 2 diabetes mellitus" in
  let entry := Sample.mk "Type 2 diabetes mellitus" "E11.9" in
  nth_error sampleData 0 = Some entry /\
  List.length (sampleWordsOf entry) = 4 /\
  matchCount (split " " (trim (toLowerCase input))) (sampleWordsOf entry)
    = 4 /\
  confidenceOf (trim (toLowerCase input)) entry =
    Math_min n0_95 (add (mul (div (of_nat 4) (of_nat 4)) n0_9) n0_1) /\
  Math_min n0_95 (add (mul (div (of_nat 4) (of_nat 4)) n0_9) n0_1)
    = n0_95 /\
  predictIcdCode input =
    PredictionResult.mk "E11.9" n0_95 "Type 2 diabetes mellitus".
Proof. vm_compute. repeat split. Qed.

(** C6.  On "diabetes" the result is the entry "Type 2 diabetes mellitus"
    (code "E11.9"); one of its four label tokens matches and the confidence
    is (1/4)*0.9 + 0.1, which is the number 0.325, strictly between 0.1 and
    0.95 and strictly above the fallback's 0.3. *)
Theorem C6_partial_overlap :
  let input := "diabetes" in
  let entry := Sample.mk "Type 2 diabetes mellitus" "E11.9" in
  let result := predictIcdCode input in
  let c := PredictionResult.confidence result in
  In entry sampleData /\
  matchCount (split " " (trim (toLowerCase input))) (sampleWordsOf entry)
    = 1 /\
  List.length (sampleWordsOf entry) = 4 /\
  result = PredictionResult.mk "E11.9" c "Type 2 diabetes mellitus" /\
  c = add (mul (div (of_nat 1) (of_nat 4)) n0_9) n0_1 /\
  c = n0_325 /\
  lt n0_1 c = true /\ lt c n0_95 = true /\
  gt c (PredictionResult.confidence fallback) = true.
Proof. vm_compute. repeat split. left. reflexivity. Qed.

(** C7.  On "unrelated text with no keywords" no label token of any entry
    contains or is contained in an input token, every entry scores 0.1,
    which is below 0.3, and the result is the fallback. *)
Theorem C7_no_overlap :
  let input := "unrelated text with no keywords" in
  let inputWords := split " " (trim (toLowerCase input)) in
  Forall
    (fun sample =>
       Forall (fun word => someMatch inputWords word = false)
              (sampleWordsOf sample) /\
       matchCount inputWords (sampleWordsOf sample) = 0 /\
       confidenceOf (trim (toLowerCase input)) sample = n0_1)
    sampleData /\
  lt n0_1 n0_3 = true /\
  predictIcdCode input = fallback /\
  fallback = PredictionResult.mk "Z00.00" n0_3 "General medical examination".
Proof.
  cbv zeta. split; [|vm_compute; repeat split].
  apply Forall_forall. intros sample Hin.
  cbn [sampleData In] in Hin.
  repeat (destruct Hin as [<- | Hin];
          [split; [|split; vm_compute; reflexivity];
           apply Forall_forall; intros word Hword;
           vm_compute in Hword;
           repeat (destruct Hword as [<- | Hword];
                   [vm_compute; reflexivity|]);
           destruct Hword|]).
  destruct Hin.
Qed.

(** C8.  Lower-casing the input beforehand does not change the result, over
    any table; "ASTHMA" and "asthma" give the same result over
    [sampleData]. *)
Theorem C8_case_insensitive (table : list Sample.t) (input : string) :
  predictIcdCodeOver table input =
    predictIcdCodeOver table (toLowerCase input) /\
  predictIcdCode "ASTHMA" = predictIcdCode "asthma".
Proof.
  split.
  - unfold predictIcdCodeOver. now rewrite toLowerCase_idem.
  - vm_compute. reflexivity.
Qed.

(** The quotient [matchCount / sampleWords.length] for an entry of
    [sampleData]: a number between 0 and 1, whatever the input. *)
Lemma quotient_sampleData (normalizedInput : string) (sample : Sample.t) :
  In sample sampleData ->
  let total := List.length (sampleWordsOf sample) in
  let q := div (of_nat (matchCount (split " " normalizedInput)
                                   (sampleWordsOf sample)))
               (of_nat total) in
  eq (of_nat total) n0 = false /\
  isNaN q = false /\ le n0 q = true /\ le q n1 = true /\
  isNaN (confidenceOf normalizedInput sample) = false.
Proof.
  intros Hin. unfold confidenceOf.
  pose proof (matchCount_le (split " " normalizedInput)
                            (sampleWordsOf sample)) as Hle.
  revert Hle.
  generalize (matchCount (split " " normalizedInput) (sampleWordsOf sample)).
  intros m Hle. cbn [sampleData In] in Hin.
  repeat (destruct Hin as [<- | Hin];
          [vm_compute in Hle;
           repeat (destruct m as [|m];
                   [vm_compute; repeat split|
                    apply le_S_n in Hle || (exfalso; inversion Hle)])|]).
  destruct Hin.
Qed.

(** C10.  Every call returns a result, on any input and over any table.  A
    label split on spaces has at least one token, so the divisor of the
    score is never zero, and the quotient and the score are numbers (not
    NaN) for every label of fewer than 2^53 tokens, the bound on the length
    of a string.  Over [sampleData] the quotient lies between 0 and 1. *)
Theorem C10_total (table : list Sample.t) (input : string) :
  (exists result,
      returns table input result /\
      result = predictIcdCodeOver table input) /\
  (forall sample : Sample.t,
      let inputWords := split " " (trim (toLowerCase input)) in
      let total := List.length (sampleWordsOf sample) in
      let q := div (of_nat (matchCount inputWords (sampleWordsOf sample)))
                   (of_nat total) in
      total <> 0 /\
      ((Z.of_nat total < 2 ^ 53)%Z ->
       isNaN q = false /\
       isNaN (confidenceOf (trim (toLowerCase input)) sample) = false)) /\
  Forall
    (fun sample =>
       let total := List.length (sampleWordsOf sample) in
       let q := div (of_nat (matchCount
                               (split " " (trim (toLowerCase input)))
                               (sampleWordsOf sample)))
                    (of_nat total) in
       eq (of_nat total) n0 = false /\
       isNaN q = false /\ le n0 q = true /\ le q n1 = true /\
       isNaN (confidenceOf (trim (toLowerCase input)) sample) = false)
    sampleData.
Proof.
  split; [|split].
  - exists (predictIcdCodeOver table input).
    split; [apply run_fold | reflexivity].
  - intros sample inputWords total q.
    assert (Hpos : 1 <= total)
      by apply (split_length " " (toLowerCase (Sample.diagnosis sample))).
    split; [lia|]. intros Hbound.
    destruct (scoreOf_signed (matchCount inputWords (sampleWordsOf sample))
                             total) as [Hq Hs]; [lia|].
    split; eapply signed_not_NaN; [exact Hq | exact Hs].
  - apply Forall_forall. intros sample Hin.
    now apply quotient_sampleData.
Qed.


(** * The rest of the component *)

Import Display.

Example percentage_examples :
  percentage n0_95 = Text "95.0" /\ percentage n0_55 = Text "55.0" /\
  percentage n0_325 = Text "32.5" /\ percentage n0 = Text "0.0" /\
  toFixed 1 (of_Z 7) = Text "7.0" /\
  toFixed 2 (decimal 5 1000) = Text "0.01" /\
  toFixed 0 (decimal 5 2) = Text "3" /\
  toFixed 1 (decimal (-5) 100) = Text "-0.1" /\
  toFixed 1 (decimal (-4) 100) = Text "-0.0".
Proof. repeat split. Qed.

(** ** Thresholds of the display *)

Section DisplayFacts.

Ltac compare_cases :=
  repeat match goal with
    | H : context [Z.compare ?a ?b] |- _ =>
        destruct (Z.compare_spec a b); simpl in *
    | |- context [Z.compare ?a ?b] =>
        destruct (Z.compare_spec a b); simpl in *
    | H : context [Pos.compare_cont Eq ?a ?b] |- _ =>
        change (Pos.compare_cont Eq a b) with (Pos.compare a b) in *;
        destruct (Pos.compare_spec a b); simpl in *
    | |- context [Pos.compare_cont Eq ?a ?b] =>
        change (Pos.compare_cont Eq a b) with (Pos.compare a b) in *;
        destruct (Pos.compare_spec a b); simpl in *
    end;
  simpl in *; try discriminate; try reflexivity; try lia.

Ltac number_cases :=
  unfold lt, le, gt, ge, SFltb, SFleb;
  repeat match goal with
    | x : number |- _ => destruct x as [[]|[]| |[] ? ?]
    end;
  simpl; try discriminate; try reflexivity; intros; compare_cases.

(** Two numbers are comparable. *)
Lemma not_lt_ge (a b : number) :
  isNaN a = false -> isNaN b = false -> lt a b = false -> ge a b = true.
Proof. number_cases. Qed.

Lemma ge_not_lt (a b : number) : ge a b = true -> lt a b = false.
Proof. number_cases. Qed.

Lemma ge_NaN_l (b : number) : ge S754_nan b = false.
Proof. destruct b; reflexivity. Qed.

Lemma lt_NaN_l (b : number) : lt S754_nan b = false.
Proof. reflexivity. Qed.

Lemma isNaN_true (c : number) : isNaN c = true -> c = S754_nan.
Proof. destruct c; simpl; congruence. Qed.

End DisplayFacts.

Lemma predictIcdCode_eq (input : string) :
  predictIcdCode input = predictIcdCodeOver sampleData input.
Proof. reflexivity. Qed.

(** The three bands of a confidence that is a number. *)
Lemma display_bands (c : number) :
  isNaN c = false ->
  (ge c n0_8 = true /\
   getConfidenceColor c = "success" /\ getConfidenceIcon c = CheckCircle /\
   interpretation c = [("ml-2 text-success", highText)])
  \/
  (ge c n0_6 = true /\ lt c n0_8 = true /\
   getConfidenceColor c = "warning" /\ getConfidenceIcon c = Clock /\
   interpretation c = [("ml-2 text-warning", mediumText)])
  \/
  (lt c n0_6 = true /\
   getConfidenceColor c = "destructive" /\
   getConfidenceIcon c = AlertCircle /\
   interpretation c = [("ml-2 text-destructive", lowText)]).
Proof.
  intros Hc.
  unfold getConfidenceColor, getConfidenceIcon, interpretation.
  destruct (ge c n0_8) eqn:H8.
  - left.
    assert (H6 : ge c n0_6 = true).
    { unfold ge in *. apply (le_trans n0_6 n0_8 c); [reflexivity|exact H8]. }
    rewrite (ge_not_lt _ _ H8), (ge_not_lt _ _ H6), H6. auto.
  - assert (L8 : lt c n0_8 = true).
    { destruct (lt c n0_8) eqn:L; [reflexivity|].
      rewrite (not_lt_ge c n0_8 Hc eq_refl L) in H8. discriminate. }
    rewrite L8. destruct (ge c n0_6) eqn:H6.
    + right. left. rewrite (ge_not_lt _ _ H6). auto.
    + right. right.
      assert (L6 : lt c n0_6 = true).
      { destruct (lt c n0_6) eqn:L; [reflexivity|].
        rewrite (not_lt_ge c n0_6 Hc eq_refl L) in H6. discriminate. }
      rewrite L6. auto.
Qed.

(** X1.  The badge colour, the icon and the interpretation text are cut at
    the same thresholds: a confidence that is a number shows exactly one
    interpretation, the high one with "success" and the check mark from 0.8
    on, the medium one with "warning" and the clock from 0.6 up to 0.8, the
    low one with "destructive" and the alert below 0.6.  For NaN the badge
    is "destructive" with the alert, and no interpretation is rendered. *)
Theorem X1_display_thresholds (c : number) :
  (isNaN c = false ->
   (ge c n0_8 = true /\
    getConfidenceColor c = "success" /\ getConfidenceIcon c = CheckCircle /\
    interpretation c = [("ml-2 text-success", highText)])
   \/
   (ge c n0_6 = true /\ lt c n0_8 = true /\
    getConfidenceColor c = "warning" /\ getConfidenceIcon c = Clock /\
    interpretation c = [("ml-2 text-warning", mediumText)])
   \/
   (lt c n0_6 = true /\
    getConfidenceColor c = "destructive" /\
    getConfidenceIcon c = AlertCircle /\
    interpretation c = [("ml-2 text-destructive", lowText)])) /\
  (isNaN c = true ->
   getConfidenceColor c = "destructive" /\
   getConfidenceIcon c = AlertCircle /\
   interpretation c = []).
Proof.
  split.
  - apply display_bands.
  - intros Hc. apply isNaN_true in Hc. subst c. repeat split.
Qed.

(** ** The scores over [sampleData] *)

Section SampleScores.

Lemma le_not_NaN (a b : number) :
  le a b = true -> isNaN a = false /\ isNaN b = false.
Proof.
  unfold le, SFleb.
  destruct a as [[]|[]| |[] ? ?], b as [[]|[]| |[] ? ?]; simpl;
    intros H; try discriminate H; split; reflexivity.
Qed.

(** No entry scores above the confidence of the result, over any table. *)
Lemma result_max (table : list Sample.t) (input : string) (e : Sample.t) :
  In e table ->
  gt (confidenceOf (trim (toLowerCase input)) e)
     (PredictionResult.confidence (predictIcdCodeOver table input)) = false.
Proof.
  intros Hin. unfold predictIcdCodeOver.
  destruct (fold_selects (trim (toLowerCase input)) table fallback)
    as [[Hr Hall] | (before & w & after & Ht & Hr & Hgt & Hb & Ha)];
    cbv zeta in *.
  - rewrite Hr. now apply Hall.
  - rewrite Hr. cbn [PredictionResult.confidence].
    rewrite Ht in Hin. apply in_app_or in Hin.
    destruct Hin as [Hin | [<- | Hin]].
    + specialize (Hb e Hin). rewrite gt_lt.
      destruct (lt (confidenceOf (trim (toLowerCase input)) w)
                   (confidenceOf (trim (toLowerCase input)) e)) eqn:L;
        [|reflexivity].
      apply lt_le in L. congruence.
    + rewrite gt_lt. apply lt_irrefl.
    + now apply Ha.
Qed.

Lemma matchCount_none (inputWords sampleWords : list string) :
  matchCount inputWords sampleWords = 0 <->
  forall word, In word sampleWords -> someMatch inputWords word = false.
Proof.
  rewrite matchCount_filter.
  induction sampleWords as [|w ws IH]; simpl.
  - split; [intros _ word [] | reflexivity].
  - destruct (someMatch inputWords w) eqn:E; simpl.
    + split; [discriminate|]. intros H.
      specialize (H w (or_introl eq_refl)). congruence.
    + rewrite IH. split.
      * intros H word [<- | Hin]; [exact E | now apply H].
      * intros H word Hin. apply H. now right.
Qed.

Lemma matchCount_every (inputWords sampleWords : list string) :
  matchCount inputWords sampleWords = List.length sampleWords <->
  forall word, In word sampleWords -> someMatch inputWords word = true.
Proof.
  rewrite matchCount_filter.
  induction sampleWords as [|w ws IH]; simpl.
  - split; [intros _ word [] | reflexivity].
  - destruct (someMatch inputWords w) eqn:E; simpl.
    + split.
      * intros H. injection H as H. pose proof (proj1 IH H) as H'.
        intros word [<- | Hin]; [exact E | now apply H'].
      * intros H. f_equal. apply (proj2 IH).
        intros word Hin. apply H. now right.
    + split.
      * intros H. exfalso.
        pose proof (filter_length_le (someMatch inputWords) ws). lia.
      * intros H. specialize (H w (or_introl eq_refl)). congruence.
Qed.

(** The scores an entry of [sampleData] can take, by the number of its
    label tokens that match. *)
Lemma sampleData_score (sample : Sample.t) (m : nat) :
  In sample sampleData ->
  m <= List.length (sampleWordsOf sample) ->
  let n := List.length (sampleWordsOf sample) in
  (m = 0 /\ scoreOf m n = n0_1) \/
  (m = n /\ scoreOf m n = n0_95) \/
  (0 < m < n /\
   In (scoreOf m n) [n0_325; n0_4; n0_55; n0_7; n0_775]).
Proof.
  intros Hin Hle. cbv zeta. cbn [sampleData In] in Hin.
  repeat (destruct Hin as [<- | Hin];
          [vm_compute in Hle;
           repeat (destruct m as [|m];
                   [first [ left; split; vm_compute; reflexivity
                          | right; left; split; vm_compute; reflexivity
                          | right; right; split;
                            [vm_compute; lia | vm_compute; auto 10] ]
                   | apply le_S_n in Hle || (exfalso; inversion Hle)])|]).
  destruct Hin.
Qed.

Lemma sampleData_confidence (normalizedInput : string) (sample : Sample.t) :
  In sample sampleData ->
  let c := confidenceOf normalizedInput sample in
  let m := matchCount (split " " normalizedInput) (sampleWordsOf sample) in
  let n := List.length (sampleWordsOf sample) in
  (m = 0 /\ c = n0_1) \/
  (m = n /\ c = n0_95) \/
  (0 < m < n /\ In c [n0_325; n0_4; n0_55; n0_7; n0_775]).
Proof.
  intros Hin. apply (sampleData_score sample _ Hin), matchCount_le.
Qed.

End SampleScores.

(** The confidence of a result over [sampleData]: 0.3 for the fallback,
    otherwise the score of an entry with at least one matching token. *)
Lemma predictIcdCode_cases (input : string) :
  let inputWords := split " " (trim (toLowerCase input)) in
  let result := predictIcdCode input in
  let c := PredictionResult.confidence result in
  (result = fallback /\ c = n0_3) \/
  (exists sample,
      In sample sampleData /\
      result = PredictionResult.mk (Sample.code sample) c
                                   (Sample.diagnosis sample) /\
      c = confidenceOf (trim (toLowerCase input)) sample /\
      ((matchCount inputWords (sampleWordsOf sample) =
          List.length (sampleWordsOf sample) /\ c = n0_95) \/
       In c [n0_325; n0_4; n0_55; n0_7; n0_775])).
Proof.
  cbv zeta. rewrite predictIcdCode_eq.
  destruct (result_cases sampleData input) as [Hr | (e & Hin & Hr & Hgt)];
    cbv zeta in *.
  - left. rewrite Hr. split; reflexivity.
  - right. exists e. rewrite Hr in *. cbn [PredictionResult.confidence] in *.
    split; [exact Hin|]. split; [reflexivity|]. split; [reflexivity|].
    destruct (sampleData_confidence (trim (toLowerCase input)) e Hin)
      as [[_ Hc] | [[Hm Hc] | [_ Hc]]]; cbv zeta in *.
    + rewrite Hc in Hgt. discriminate Hgt.
    + left. split; assumption.
    + right. exact Hc.
Qed.

(** X2.  For every input the result is displayed with exactly one
    interpretation, and the badge is "success" exactly when some entry of
    [sampleData] has every one of its label tokens matched by the input. *)
Theorem X2_success_iff_full_match (input : string) :
  let inputWords := split " " (trim (toLowerCase input)) in
  let c := PredictionResult.confidence (predictIcdCode input) in
  (exists span, interpretation c = [span]) /\
  (getConfidenceColor c = "success" <->
   exists sample,
     In sample sampleData /\
     forall word, In word (sampleWordsOf sample) ->
                  someMatch inputWords word = true).
Proof.
  cbv zeta.
  pose proof (predictIcdCode_cases input) as Hcases.
  cbv zeta in Hcases. rewrite predictIcdCode_eq in *.
  pose proof (confidence_bounds sampleData input) as [Hlo Hhi].
  cbv zeta in Hlo, Hhi.
  destruct (le_not_NaN _ _ Hlo) as [_ Hnan].
  split.
  - destruct (display_bands _ Hnan)
      as [(_ & _ & _ & H) | [(_ & _ & _ & _ & H) | (_ & _ & _ & H)]];
      rewrite H; eauto.
  - assert (Hcolor : forall c, getConfidenceColor c = "success" <->
                               ge c n0_8 = true).
    { intros c. unfold getConfidenceColor.
      destruct (ge c n0_8); [tauto|].
      destruct (ge c n0_6); split; discriminate. }
    rewrite Hcolor. split.
    + intros H8.
      destruct Hcases
        as [[_ Hc] | (e & Hin & _ & _ & [[Hm _] | Hc])].
      * rewrite Hc in H8. discriminate H8.
      * exists e. split; [exact Hin|]. now apply matchCount_every.
      * exfalso. cbn [In] in Hc.
        repeat (destruct Hc as [Hc | Hc];
                [rewrite <- Hc in H8; discriminate H8|]).
        exact Hc.
    + intros (e & Hin & Hall). apply matchCount_every in Hall.
      pose proof (result_max sampleData input e Hin) as Hmax.
      destruct (sampleData_confidence (trim (toLowerCase input)) e Hin)
        as [[Hm _] | [[_ Hc] | [Hm _]]]; cbv zeta in *.
      * pose proof (split_length " " (toLowerCase (Sample.diagnosis e))).
        unfold sampleWordsOf in *. lia.
      * rewrite Hc, gt_lt in Hmax.
        apply (not_lt_ge _ n0_95 Hnan eq_refl) in Hmax.
        unfold ge in *. apply (le_trans n0_8 n0_95); [reflexivity|exact Hmax].
      * lia.
Qed.

(** X3.  Over [sampleData] the fallback is returned exactly when no label
    token of any entry matches any input token: with labels of at most four
    tokens, a single match already scores above 0.3. *)
Theorem X3_fallback_iff_no_match (input : string) :
  let inputWords := split " " (trim (toLowerCase input)) in
  predictIcdCode input = fallback <->
  forall sample, In sample sampleData ->
  forall word, In word (sampleWordsOf sample) ->
               someMatch inputWords word = false.
Proof.
  cbv zeta. rewrite predictIcdCode_eq. split.
  - intros Hr sample Hin. apply matchCount_none.
    pose proof (result_max sampleData input sample Hin) as Hmax.
    rewrite Hr in Hmax. cbn [fallback PredictionResult.confidence] in Hmax.
    destruct (sampleData_confidence (trim (toLowerCase input)) sample Hin)
      as [[Hm _] | [[_ Hc] | [_ Hc]]]; cbv zeta in *.
    + exact Hm.
    + rewrite Hc in Hmax. discriminate Hmax.
    + exfalso. cbn [In] in Hc.
      repeat (destruct Hc as [Hc | Hc];
              [rewrite <- Hc in Hmax; discriminate Hmax|]).
      exact Hc.
  - intros Hnone.
    destruct (result_cases sampleData input) as [Hr | (e & Hin & Hr & Hgt)];
      cbv zeta in *; [exact Hr|].
    exfalso. rewrite Hr in Hgt. cbn [PredictionResult.confidence] in Hgt.
    pose proof (proj2 (matchCount_none _ _) (Hnone e Hin)) as Hm.
    destruct (sampleData_confidence (trim (toLowerCase input)) e Hin)
      as [[_ Hc] | [[Hn _] | [Hn _]]]; cbv zeta in *.
    + rewrite Hc in Hgt. discriminate Hgt.
    + pose proof (split_length " " (toLowerCase (Sample.diagnosis e))).
      unfold sampleWordsOf in *. lia.
    + lia.
Qed.

(** X4.  The confidences the component can display are exactly seven
    numbers, and the figure shown in the badge and in the notification is
    accordingly one of seven texts, from "30.0" for the fallback to
    "95.0"; each of them is displayed for some input. *)
Theorem X4_displayed_figures :
  let figures :=
    [ (n0_3, Text "30.0"); (n0_325, Text "32.5"); (n0_4, Text "40.0");
      (n0_55, Text "55.0"); (n0_7, Text "70.0"); (n0_775, Text "77.5");
      (n0_95, Text "95.0") ] in
  let shown input :=
    (PredictionResult.confidence (predictIcdCode input),
     percentage (PredictionResult.confidence (predictIcdCode input))) in
  (forall input, In (shown input) figures) /\
  (forall figure, In figure figures -> exists input, shown input = figure).
Proof.
  cbv zeta. split.
  - intros input.
    destruct (predictIcdCode_cases input)
      as [[_ Hc] | (e & _ & _ & _ & [[_ Hc] | Hc])]; cbv zeta in *.
    + rewrite Hc. vm_compute. auto 10.
    + rewrite Hc. vm_compute. auto 10.
    + cbn [In] in Hc.
      repeat (destruct Hc as [Hc | Hc];
              [rewrite <- Hc; vm_compute; auto 10|]).
      destruct Hc.
  - intros figure Hin. cbn [In] in Hin.
    destruct Hin as [<- | [<- | [<- | [<- | [<- | [<- | [<- | []]]]]]]].
    + exists "x". vm_compute. reflexivity.
    + exists "diabetes". vm_compute. reflexivity.
    + exists "kidney". vm_compute. reflexivity.
    + exists "acute". vm_compute. reflexivity.
    + exists "kidney disease". vm_compute. reflexivity.
    + exists "type 2 diabetes". vm_compute. reflexivity.
    + exists "asthma". vm_compute. reflexivity.
Qed.

(** ** How the result depends on the input words *)

Section InputWords.

Lemma someMatch_incl (words1 words2 : list string) (word : string) :
  incl words1 words2 ->
  someMatch words1 word = true -> someMatch words2 word = true.
Proof.
  unfold someMatch. intros Hincl H.
  apply existsb_exists in H as (w & Hin & Hw).
  apply existsb_exists. exists w. split; [now apply Hincl | exact Hw].
Qed.

Lemma someMatch_same (words1 words2 : list string) (word : string) :
  (forall w, In w words1 <-> In w words2) ->
  someMatch words1 word = someMatch words2 word.
Proof.
  intros Hsame.
  destruct (someMatch words1 word) eqn:E1, (someMatch words2 word) eqn:E2;
    try reflexivity.
  - rewrite (someMatch_incl words1 words2 word) in E2;
      [discriminate | intros w; apply Hsame | exact E1].
  - rewrite (someMatch_incl words2 words1 word) in E1;
      [discriminate | intros w; apply Hsame | exact E2].
Qed.

Lemma matchCount_incl (words1 words2 sampleWords : list string) :
  incl words1 words2 ->
  matchCount words1 sampleWords <= matchCount words2 sampleWords.
Proof.
  intros Hincl. rewrite !matchCount_filter.
  induction sampleWords as [|w ws IH]; simpl; [lia|].
  destruct (someMatch words1 w) eqn:E1.
  - rewrite (someMatch_incl _ _ _ Hincl E1). simpl. lia.
  - destruct (someMatch words2 w); simpl; lia.
Qed.

(** Over [sampleData] a score does not decrease when more label tokens
    match. *)
Lemma sampleData_score_mono (sample : Sample.t) (m1 m2 : nat) :
  In sample sampleData ->
  m1 <= m2 -> m2 <= List.length (sampleWordsOf sample) ->
  le (scoreOf m1 (List.length (sampleWordsOf sample)))
     (scoreOf m2 (List.length (sampleWordsOf sample))) = true.
Proof.
  intros Hin H12 H2. cbn [sampleData In] in Hin.
  repeat (destruct Hin as [<- | Hin];
          [vm_compute in H2;
           repeat (destruct m2 as [|m2];
                   [repeat (destruct m1 as [|m1];
                            [vm_compute; reflexivity
                            |apply le_S_n in H12 || (exfalso; inversion H12)])
                   |apply le_S_n in H2 || (exfalso; inversion H2)])|]).
  destruct Hin.
Qed.

End InputWords.

(** X5.  Over [sampleData] the confidence of the result does not decrease
    when the input gains words: extra words are never counted against an
    entry. *)
Theorem X5_more_words_no_less_confidence (input1 input2 : string) :
  incl (split " " (trim (toLowerCase input1)))
       (split " " (trim (toLowerCase input2))) ->
  le (PredictionResult.confidence (predictIcdCode input1))
     (PredictionResult.confidence (predictIcdCode input2)) = true.
Proof.
  intros Hincl. rewrite !predictIcdCode_eq.
  destruct (confidence_bounds sampleData input2) as [Hlo2 _].
  cbv zeta in Hlo2.
  destruct (result_cases sampleData input1) as [Hr | (e & Hin & Hr & _)];
    cbv zeta in *.
  - rewrite Hr. exact Hlo2.
  - rewrite Hr. cbn [PredictionResult.confidence].
    assert (Hmono : le (confidenceOf (trim (toLowerCase input1)) e)
                       (confidenceOf (trim (toLowerCase input2)) e) = true).
    { unfold confidenceOf.
      apply (sampleData_score_mono e _ _ Hin).
      - now apply matchCount_incl.
      - apply matchCount_le. }
    apply (le_trans _ _ _ Hmono).
    pose proof (result_max sampleData input2 e Hin) as Hmax.
    rewrite gt_lt in Hmax.
    apply not_lt_ge in Hmax; [exact Hmax | |].
    + apply (le_not_NaN _ _ Hlo2).
    + apply (le_not_NaN _ _ Hmono).
Qed.

Lemma X5_more_words_witness :
  incl (split " " (trim (toLowerCase "diabetes")))
       (split " " (trim (toLowerCase "Type 2 diabetes"))) /\
  le (PredictionResult.confidence (predictIcdCode "diabetes"))
     (PredictionResult.confidence (predictIcdCode "Type 2 diabetes")) = true.
Proof.
  assert (H : incl (split " " (trim (toLowerCase "diabetes")))
                   (split " " (trim (toLowerCase "Type 2 diabetes")))).
  { vm_compute. intros w [<- | []]. right. right. left. reflexivity. }
  split; [exact H|].
  apply (X5_more_words_no_less_confidence "diabetes" "Type 2 diabetes" H).
Defined.

(** X6.  Over any table the result depends on the input only through the
    set of its words: their order and their repetitions do not matter. *)
Theorem X6_word_set_only (table : list Sample.t) (input1 input2 : string) :
  (forall w, In w (split " " (trim (toLowerCase input1))) <->
             In w (split " " (trim (toLowerCase input2)))) ->
  predictIcdCodeOver table input1 = predictIcdCodeOver table input2.
Proof.
  intros Hsame. unfold predictIcdCodeOver.
  assert (Hc : forall sample,
             confidenceOf (trim (toLowerCase input1)) sample =
             confidenceOf (trim (toLowerCase input2)) sample).
  { intros sample. unfold confidenceOf. rewrite !matchCount_filter.
    now rewrite (filter_ext _ _ (fun word => someMatch_same _ _ word Hsame)). }
  generalize fallback.
  induction table as [|sample rest IH]; intros best; cbn [fold_left].
  - reflexivity.
  - unfold iteration at 2 4. rewrite (Hc sample). apply IH.
Qed.

Lemma X6_word_set_witness :
  predictIcdCodeOver sampleData "mellitus DIABETES" =
  predictIcdCodeOver sampleData "diabetes mellitus diabetes".
Proof.
  apply (X6_word_set_only sampleData).
  intros w. vm_compute. tauto.
Defined.

(** ** White space around the input *)

Section Padding.

Lemma trimStart_app_ws (p x : string) :
  allWhiteSpace p = true -> trimStart (p ++ x) = trimStart x.
Proof.
  induction p as [|c p IH]; simpl; [reflexivity|].
  intros H. apply andb_true_iff in H as [Hc Hp]. rewrite Hc. now apply IH.
Qed.

Lemma trimEnd_allWhiteSpace (q : string) :
  allWhiteSpace q = true -> trimEnd q = "".
Proof.
  induction q as [|c q IH]; simpl; [reflexivity|].
  intros H. apply andb_true_iff in H as [Hc Hq]. now rewrite IH, Hc.
Qed.

Lemma trimEnd_app_ws (x q : string) :
  allWhiteSpace q = true -> trimEnd (x ++ q) = trimEnd x.
Proof.
  intros Hq. induction x as [|c x IH]; simpl.
  - now apply trimEnd_allWhiteSpace.
  - now rewrite IH.
Qed.

Lemma trim_app_ws (s q : string) :
  allWhiteSpace q = true -> trim (s ++ q) = trim s.
Proof.
  intros Hq. unfold trim. induction s as [|c s IH]; simpl.
  - now rewrite (trimStart_allWhiteSpace q Hq).
  - destruct (isWhiteSpace c); [exact IH|].
    apply (trimEnd_app_ws (String c s) q Hq).
Qed.

Lemma trim_padding (p s q : string) :
  allWhiteSpace p = true -> allWhiteSpace q = true ->
  trim (p ++ s ++ q) = trim s.
Proof.
  intros Hp Hq. unfold trim at 1. rewrite (trimStart_app_ws p _ Hp).
  now apply trim_app_ws.
Qed.

Lemma toLowerCase_app (a b : string) :
  toLowerCase (a ++ b) = toLowerCase a ++ toLowerCase b.
Proof. induction a as [|c a IH]; simpl; [reflexivity | now rewrite IH]. Qed.

Lemma trim_empty_iff (s : string) :
  trim s = "" <-> allWhiteSpace s = true.
Proof.
  split; [|apply trim_allWhiteSpace].
  unfold trim. induction s as [|c s IH]; simpl; [reflexivity|].
  destruct (isWhiteSpace c) eqn:Hc; [exact IH|].
  simpl. rewrite Hc. destruct (trimEnd s); discriminate.
Qed.

End Padding.

(** X7.  Over any table, white space before and after the input does not
    change the result. *)
Theorem X7_surrounding_white_space (table : list Sample.t)
  (before input after : string) :
  allWhiteSpace before = true -> allWhiteSpace after = true ->
  predictIcdCodeOver table (before ++ input ++ after) =
  predictIcdCodeOver table input.
Proof.
  intros Hb Ha. unfold predictIcdCodeOver.
  rewrite !toLowerCase_app, trim_padding; [reflexivity | |];
    now rewrite allWhiteSpace_toLowerCase.
Qed.

Lemma X7_surrounding_white_space_witness :
  predictIcdCodeOver sampleData ("  " ++ "Migraine" ++ " ") =
  predictIcdCodeOver sampleData "Migraine".
Proof.
  apply (X7_surrounding_white_space sampleData "  " "Migraine" " ");
    reflexivity.
Defined.

(** X8.  A diagnosis of [sampleData], typed in any letter case and with
    white space around it, gets its own code back with confidence 0.95 and
    its text as written in the table. *)
Theorem X8_own_label (sample : Sample.t) (input : string) :
  In sample sampleData ->
  trim (toLowerCase input) = toLowerCase (Sample.diagnosis sample) ->
  predictIcdCode input =
  PredictionResult.mk (Sample.code sample) n0_95 (Sample.diagnosis sample).
Proof.
  intros Hin Hinput. rewrite predictIcdCode_eq. unfold predictIcdCodeOver.
  rewrite Hinput. cbn [sampleData In] in Hin.
  repeat (destruct Hin as [<- | Hin]; [vm_compute; reflexivity|]).
  destruct Hin.
Qed.

Lemma X8_own_label_witness :
  predictIcdCode "  CHRONIC Kidney disease " =
  PredictionResult.mk "N18.9" n0_95 "Chronic kidney disease".
Proof.
  apply (X8_own_label (Sample.mk "Chronic kidney disease" "N18.9")).
  - cbn [sampleData In]. tauto.
  - reflexivity.
Defined.

(** ** The handlers and the states of the component *)

Import Component.

Section ComponentFacts.

Lemma eqb_trim_empty (s : string) :
  String.eqb (trim s) "" = allWhiteSpace s.
Proof.
  destruct (allWhiteSpace s) eqn:E.
  - apply String.eqb_eq. now apply trim_empty_iff.
  - apply String.eqb_neq. intros H. apply trim_empty_iff in H. congruence.
Qed.

Lemma fire_invariants (e : event) (st st' : state) :
  fire e st = Some st' ->
  loadingInvariant st /\ predictionInvariant st ->
  loadingInvariant st' /\ predictionInvariant st'.
Proof.
  unfold loadingInvariant, predictionInvariant.
  destruct st as [text loading pred pending shown]. cbn.
  destruct e as [value | |]; cbn.
  - intros [= <-]. cbn. tauto.
  - destruct loading; [discriminate|].
    intros [= <-] [[[H _] | [_ ->]] Hp]; [discriminate H|].
    unfold handlePredict. cbn [diagnosisText]. rewrite eqb_trim_empty.
    destruct (allWhiteSpace text) eqn:E; cbn.
    + split; [right; split; reflexivity | exact Hp].
    + split; [left; split; [reflexivity|]; exists text; now split
             | exact Hp].
  - destruct pending as [|captured rest]; [discriminate|].
    intros [= <-] [[[_ (t & [= -> ->] & Ht)] | [_ H]] _]; [|discriminate H].
    cbn. split; [right; split; reflexivity|].
    right. exists t. now split.
Qed.

Lemma fireAll_invariants (es : list event) (st st' : state) :
  fireAll es st = Some st' ->
  loadingInvariant st /\ predictionInvariant st ->
  loadingInvariant st' /\ predictionInvariant st'.
Proof.
  revert st. induction es as [|e es IH]; intros st; cbn [fireAll].
  - now intros [= <-].
  - destruct (fire e st) as [st1|] eqn:E; [|discriminate].
    intros Hrest Hinv. apply (IH st1 Hrest).
    now apply (fire_invariants e st).
Qed.

Lemma reachable_invariants (st : state) :
  reachable st -> loadingInvariant st /\ predictionInvariant st.
Proof.
  intros (es & Hes). apply (fireAll_invariants es initial st Hes).
  split; [right; split; reflexivity | left; reflexivity].
Qed.

Lemma fireAll_app (es1 es2 : list event) (st : state) :
  fireAll (es1 ++ es2) st =
  match fireAll es1 st with
  | Some st1 => fireAll es2 st1
  | None => None
  end.
Proof.
  revert st. induction es1 as [|e es1 IH]; intros st; cbn [fireAll app].
  - reflexivity.
  - destruct (fire e st); [apply IH | reflexivity].
Qed.

Lemma last_cons_default (x : string) (l : list string) (d d' : string) :
  last (x :: l) d = last (x :: l) d'.
Proof.
  revert x. induction l as [|y l IH]; intros x; [reflexivity|].
  change (last (y :: l) d = last (y :: l) d'). apply IH.
Qed.

Lemma fireAll_changes (values : list string) (st : state) :
  fireAll (map Change values) st =
  Some (mk (last values (diagnosisText st)) (isLoading st) (prediction st)
           (timers st) (toasts st)).
Proof.
  revert st. induction values as [|v vs IH]; intros st.
  - now destruct st.
  - cbn [map fireAll fire]. rewrite IH. cbn.
    destruct vs as [|v' vs]; [reflexivity|].
    now rewrite (last_cons_default v' vs v (diagnosisText st)).
Qed.

End ComponentFacts.

(** X9.  [handlePredict] starts a prediction exactly when the text has a
    code unit that is not white space: it then sets the loading flag and
    hands the current text to a timer.  On an empty or blank text (spaces,
    tabs, line breaks, no-break spaces) it only raises the warning, and the
    loading flag, the prediction and the timers stay as they are. *)
Theorem X9_handlePredict_validation (st : state) :
  (allWhiteSpace (diagnosisText st) = true ->
   handlePredict st =
   mk (diagnosisText st) (isLoading st) (prediction st) (timers st)
      (toasts st ++ [EnterText])) /\
  (allWhiteSpace (diagnosisText st) = false ->
   handlePredict st =
   mk (diagnosisText st) true (prediction st)
      (timers st ++ [diagnosisText st]) (toasts st)).
Proof.
  unfold handlePredict. rewrite eqb_trim_empty.
  split; intros ->; reflexivity.
Qed.

(** X10.  In every state the component can reach, the loading flag is set
    exactly while one timer is pending, never two, and the text that timer
    holds is not blank.  While the flag is set the button does nothing, and
    the pending timer ends the loading and shows a result. *)
Theorem X10_loading_invariant (st : state) :
  reachable st ->
  loadingInvariant st /\
  (isLoading st = true ->
   fire Click st = None /\
   exists st',
     fire Timeout st = Some st' /\
     isLoading st' = false /\ timers st' = [] /\ showsResults st' = true).
Proof.
  intros Hr. destruct (reachable_invariants st Hr) as [Hl _].
  split; [exact Hl|]. intros Hloading.
  destruct Hl as [[_ (text & Ht & _)] | [H _]]; [|congruence].
  split; [cbn; now rewrite Hloading|].
  cbn [fire]. rewrite Ht. eexists. split; [reflexivity|]. now cbn.
Qed.

Lemma X10_loading_invariant_witness :
  reachable (mk "asthma" true None ["asthma"] []) /\
  loadingInvariant (mk "asthma" true None ["asthma"] []).
Proof.
  assert (H : reachable (mk "asthma" true None ["asthma"] []))
    by (exists [Change "asthma"; Click]; reflexivity).
  split; [exact H|].
  exact (proj1 (X10_loading_invariant _ H)).
Defined.

(** X11.  The prediction that arrives is that of the text as it was when
    the button was pressed: edits made while loading change the text field
    but not the result, which is computed from the text the timer holds. *)
Theorem X11_prediction_of_clicked_text (st : state) (edits : list string) :
  reachable st ->
  isLoading st = false ->
  allWhiteSpace (diagnosisText st) = false ->
  exists st',
    fireAll (Click :: map Change edits ++ [Timeout]) st = Some st' /\
    prediction st' = Some (predictIcdCode (diagnosisText st)) /\
    diagnosisText st' = last edits (diagnosisText st) /\
    isLoading st' = false /\
    toasts st' =
      (toasts st ++
       [Complete (PredictionResult.confidence
                    (predictIcdCode (diagnosisText st)))])%list.
Proof.
  intros Hr Hloading Hblank.
  destruct (reachable_invariants st Hr) as [[[H _] | [_ Ht]] _];
    [congruence|].
  cbn [fireAll fire]. rewrite Hloading.
  unfold handlePredict. rewrite eqb_trim_empty, Hblank.
  rewrite fireAll_app, fireAll_changes. cbn [fireAll fire timers].
  rewrite Ht. cbn [app]. eexists. split; [reflexivity|]. now cbn.
Qed.

Lemma X11_prediction_of_clicked_text_witness :
  exists st',
    fireAll [Change "Asthma"; Click; Change "Migraine"; Timeout] initial
      = Some st' /\
    diagnosisText st' = "Migraine" /\
    prediction st' = Some (predictIcdCode "Asthma").
Proof.
  assert (Hr : reachable (mk "Asthma" false None [] []))
    by (exists [Change "Asthma"]; reflexivity).
  destruct (X11_prediction_of_clicked_text _ ["Migraine"] Hr eq_refl eq_refl)
    as (st' & Hrun & Hp & Ht & _).
  exists st'. repeat split; assumption.
Defined.







